(** * BFT-Consensus: a shallow embedding of [src/index.ts]

    The class [BFTConsensus] of the prototype is embedded as a record of its
    private fields together with one function per method.  Methods mutate
    [this] and write to the console through [broadcast]; both effects are
    threaded by a small state-and-output monad [Eff].

    Modelling choices, all read off the source:
    - [Set<ValidatorId>] is a [gset string], [Map<Hash, Set<ValidatorId>>] a
      [gmap string (gset string)] (no method iterates over them, so the
      insertion order kept by JavaScript is not observable);
    - [prepares.add(id)] mutates the set object that the map holds, so the
      model writes the enlarged set back under the same key;
    - heights and timestamps are integer-valued [number]s, embedded in [Z];
      set sizes and the threshold are naturals;
    - [Date.now()] is an input of [proposeBlock];
    - the payload [data: any] of a transaction is never inspected. *)

From Stdlib Require Import ZArith Lia.
From stdpp Require Import gmap strings list fin_maps fin_sets.

Local Open Scope string_scope.
Local Open Scope list_scope.
Local Open Scope nat_scope.

(** ** Data model *)

Abbreviation ValidatorId := string (only parsing).
Abbreviation Signature := string (only parsing).
Abbreviation Hash := string (only parsing).

Inductive MessageType : Type := PREPARE | COMMIT | NEW_ROUND.

Module Transaction.
Record t : Type := mk {
  id : string;
  data : string;
  signature : Signature
}.
End Transaction.

Module Block.
Record t : Type := mk {
  height : Z;
  previousHash : Hash;
  transactions : list Transaction.t;
  timestamp : Z;
  proposer : ValidatorId;
  signatures : gmap string string
}.
End Block.

Module ConsensusMessage.
Record t : Type := mk {
  type : MessageType;
  blockHeight : Z;
  blockHash : Hash;
  validatorId : ValidatorId;
  signature : Signature
}.

(** The same message with another height. *)
Definition withBlockHeight (h : Z) (m : t) : t :=
  mk (type m) h (blockHash m) (validatorId m) (signature m).
End ConsensusMessage.

Import ConsensusMessage (type, blockHeight, blockHash).

(** The private fields of [class BFTConsensus]. *)
Record BFTConsensus : Type := mkBFTConsensus {
  validators : gset string;
  prepareMessages : gmap string (gset string);
  commitMessages : gmap string (gset string);
  validatorId : ValidatorId;
  currentHeight : Z;
  requiredConsensus : nat
}.

Definition setPrepareMessages (pm : gmap string (gset string))
    (this : BFTConsensus) : BFTConsensus :=
  mkBFTConsensus (validators this) pm (commitMessages this)
    (validatorId this) (currentHeight this) (requiredConsensus this).

Definition setCommitMessages (cm : gmap string (gset string))
    (this : BFTConsensus) : BFTConsensus :=
  mkBFTConsensus (validators this) (prepareMessages this) cm
    (validatorId this) (currentHeight this) (requiredConsensus this).

Definition setCurrentHeight (h : Z) (this : BFTConsensus) : BFTConsensus :=
  mkBFTConsensus (validators this) (prepareMessages this) (commitMessages this)
    (validatorId this) h (requiredConsensus this).

(** ** Effects: mutation of [this] and console output *)

Definition Eff (A : Type) : Type :=
  BFTConsensus → A * BFTConsensus * list ConsensusMessage.t.

Definition ret {A} (a : A) : Eff A := λ this, (a, this, []).

Definition bind {A B} (c : Eff A) (k : A → Eff B) : Eff B :=
  λ this,
    let '(a, this1, out1) := c this in
    let '(b, this2, out2) := k a this1 in
    (b, this2, (out1 ++ out2)%list).

Definition gets {A} (f : BFTConsensus → A) : Eff A := λ this, (f this, this, []).
Definition modify (f : BFTConsensus → BFTConsensus) : Eff unit :=
  λ this, (tt, f this, []).

(** stdpp's monad notations [x ← c; k] and [c;; k] are used for [Eff]. *)
#[global] Instance Eff_ret : MRet Eff := @ret.
#[global] Instance Eff_bind : MBind Eff := λ A B k c, bind c k.

(** What a call returned, the engine it left behind, what it printed. *)
Definition result {A} (r : A * BFTConsensus * list ConsensusMessage.t) : A := r.1.1.
Definition final {A} (r : A * BFTConsensus * list ConsensusMessage.t) : BFTConsensus := r.1.2.
Definition emitted {A} (r : A * BFTConsensus * list ConsensusMessage.t) :
  list ConsensusMessage.t := r.2.

(** ** The class *)

Definition constructor (validatorId : ValidatorId)
    (initialValidators : list ValidatorId) : BFTConsensus :=
  let validators : gset string := list_to_set initialValidators in
  {| validators := validators;
     validatorId := validatorId;
     prepareMessages := ∅;
     commitMessages := ∅;
     currentHeight := 0;
     requiredConsensus := (size validators * 2) / 3 + 1 |}.

Definition verifyMessage (message : ConsensusMessage.t) : Eff bool :=
  gets (λ this, bool_decide (ConsensusMessage.validatorId message ∈ validators this)).

Definition getCurrentBlockHash : Eff Hash := ret "placeholder_hash".

Definition sign {A} (data : A) : Eff Signature := ret "placeholder_signature".

Definition broadcast (message : ConsensusMessage.t) : Eff unit :=
  λ this, (tt, this, [message]).

Definition broadcastPrepare (block : Block.t) : Eff unit :=
  h ← getCurrentBlockHash;
  self ← gets validatorId;
  sg ← sign block;
  broadcast (ConsensusMessage.mk PREPARE (Block.height block) h self sg).

Definition broadcastCommit (blockHash : Hash) : Eff unit :=
  cur ← gets currentHeight;
  self ← gets validatorId;
  sg ← sign blockHash;
  broadcast (ConsensusMessage.mk COMMIT (cur + 1) blockHash self sg).

Definition finalizeBlock (blockHash : Hash) : Eff unit :=
  modify (λ this, setCurrentHeight (currentHeight this + 1) this) ;;
  modify (setPrepareMessages ∅) ;;
  modify (setCommitMessages ∅) ;;
  cur ← gets currentHeight;
  self ← gets validatorId;
  broadcast (ConsensusMessage.mk NEW_ROUND (cur + 1) "" self "").

Definition startNewRound (height : Z) : Eff unit :=
  cur ← gets currentHeight;
  if (height <=? cur)%Z then ret tt
  else
    modify (setPrepareMessages ∅) ;;
    modify (setCommitMessages ∅).

Definition handlePrepareMessage (message : ConsensusMessage.t) : Eff unit :=
  ok ← verifyMessage message;
  if negb ok then ret tt
  else
    has ← gets (λ this, bool_decide (is_Some (prepareMessages this !! blockHash message)));
    (if negb has
     then modify (λ this, setPrepareMessages (<[blockHash message := ∅]> (prepareMessages this)) this)
     else ret tt) ;;
    prepares ← gets (λ this, default ∅ (prepareMessages this !! blockHash message));
    let prepares : gset string := prepares ∪ {[ConsensusMessage.validatorId message]} in
    modify (λ this, setPrepareMessages (<[blockHash message := prepares]> (prepareMessages this)) this) ;;
    required ← gets requiredConsensus;
    if (required <=? size prepares)%nat
    then broadcastCommit (blockHash message)
    else ret tt.

Definition handleCommitMessage (message : ConsensusMessage.t) : Eff unit :=
  ok ← verifyMessage message;
  if negb ok then ret tt
  else
    has ← gets (λ this, bool_decide (is_Some (commitMessages this !! blockHash message)));
    (if negb has
     then modify (λ this, setCommitMessages (<[blockHash message := ∅]> (commitMessages this)) this)
     else ret tt) ;;
    commits ← gets (λ this, default ∅ (commitMessages this !! blockHash message));
    let commits : gset string := commits ∪ {[ConsensusMessage.validatorId message]} in
    modify (λ this, setCommitMessages (<[blockHash message := commits]> (commitMessages this)) this) ;;
    required ← gets requiredConsensus;
    if (required <=? size commits)%nat
    then finalizeBlock (blockHash message)
    else ret tt.

Definition handleConsensusMessage (message : ConsensusMessage.t) : Eff unit :=
  match type message with
  | PREPARE => handlePrepareMessage message
  | COMMIT => handleCommitMessage message
  | NEW_ROUND => startNewRound (blockHeight message)
  end.

Definition proposeBlock (transactions : list Transaction.t) (now : Z) : Eff Block.t :=
  cur ← gets currentHeight;
  previous ← getCurrentBlockHash;
  self ← gets validatorId;
  let block := Block.mk (cur + 1) previous transactions now self ∅ in
  broadcastPrepare block ;;
  ret block.

(** ** Histories of public calls *)

Inductive Call : Type :=
  | ProposeBlock (transactions : list Transaction.t) (now : Z)
  | HandleConsensusMessage (message : ConsensusMessage.t).

Definition call (c : Call) : Eff unit :=
  match c with
  | ProposeBlock transactions now => proposeBlock transactions now ;; ret tt
  | HandleConsensusMessage message => handleConsensusMessage message
  end.

Fixpoint run (calls : list Call) : Eff unit :=
  match calls with
  | [] => ret tt
  | c :: calls => call c ;; run calls
  end.

(** An engine is reachable when the constructor followed by public calls
    produces it. *)
Definition reachable (this : BFTConsensus) : Prop :=
  ∃ self initialValidators calls,
    final (run calls (constructor self initialValidators)) = this.

(** The validators recorded for a hash in a tally ([∅] when the hash has no
    entry), and their number. *)
Definition votes (tally : gmap string (gset string)) (hash : Hash) : gset string :=
  default ∅ (tally !! hash).

Definition count (tally : gmap string (gset string)) (hash : Hash) : nat :=
  size (votes tally hash).

(** The tally a vote of the given phase goes to. *)
Definition tallyOf (t : MessageType) (this : BFTConsensus) : gmap string (gset string) :=
  match t with
  | PREPARE => prepareMessages this
  | COMMIT => commitMessages this
  | NEW_ROUND => ∅
  end.

(** The tally after [v]'s vote for [hash] was added to it: what
    [has]/[set]/[get]/[add] of the two vote handlers amount to. *)
Definition addVote (v : ValidatorId) (hash : Hash)
    (tally : gmap string (gset string)) : gmap string (gset string) :=
  <[hash := votes tally hash ∪ {[v]}]> tally.

Ltac eff_unfold :=
  unfold mbind, mret, Eff_bind, Eff_ret, bind, ret, gets, modify, broadcast in *.

(** What every reachable engine satisfies: the threshold is the one the
    constructor computed from the validator set, no commit tally has reached
    it (reaching it clears the tallies at once), and only members of the
    validator set are recorded. *)
Record invariant (this : BFTConsensus) : Prop := mkInvariant {
  inv_threshold :
    requiredConsensus this = size (validators this) * 2 / 3 + 1;
  inv_commit_below : ∀ hash,
    count (commitMessages this) hash < requiredConsensus this;
  inv_prepare_members : ∀ hash,
    votes (prepareMessages this) hash ⊆ validators this;
  inv_commit_members : ∀ hash,
    votes (commitMessages this) hash ⊆ validators this
}.

(** ** Scenario used in the examples: the four validators of the source's
    example run *)

Definition fourValidators : list ValidatorId :=
  ["validator1"; "validator2"; "validator3"; "validator4"].

Definition engine1 : BFTConsensus := constructor "validator1" fourValidators.

Definition vote (t : MessageType) (height : Z) (hash : Hash) (v : ValidatorId) :
    ConsensusMessage.t :=
  ConsensusMessage.mk t height hash v "signature".

(** Three COMMIT votes for one hash: with four validators the third one
    completes the quorum. *)
Definition threeCommits : list Call :=
  [HandleConsensusMessage (vote COMMIT 1 "h" "validator1");
   HandleConsensusMessage (vote COMMIT 1 "h" "validator2");
   HandleConsensusMessage (vote COMMIT 1 "h" "validator3")].

(** The same for PREPARE. *)
Definition threePrepares : list Call :=
  [HandleConsensusMessage (vote PREPARE 1 "h" "validator1");
   HandleConsensusMessage (vote PREPARE 1 "h" "validator2");
   HandleConsensusMessage (vote PREPARE 1 "h" "validator3")].

(** The engine of validator 1 once it has finalized its first block. *)
Definition engine1AtHeight1 : BFTConsensus := final (run threeCommits engine1).

(** ** Histories of votes, and what a history printed *)

(** The calls that deliver the given messages, in order. *)
Definition deliver (messages : list ConsensusMessage.t) : list Call :=
  map HandleConsensusMessage messages.

(** The validators that sent the given messages. *)
Definition senders (messages : list ConsensusMessage.t) : list ValidatorId :=
  map ConsensusMessage.validatorId messages.

Definition isNewRound (message : ConsensusMessage.t) : bool :=
  match type message with
  | NEW_ROUND => true
  | _ => false
  end.

(** [finalizeBlock] is the only method that broadcasts NEW_ROUND: the number
    of NEW_ROUND messages printed is the number of finalizations. *)
Definition finalizations (out : list ConsensusMessage.t) : nat :=
  length (List.filter isNewRound out).

Definition isDelivery (c : Call) : bool :=
  match c with
  | HandleConsensusMessage _ => true
  | ProposeBlock _ _ => false
  end.

(** ** The example run at the end of [src/index.ts]

    The module creates four engines over the same four validators and runs
    [simulateConsensusRound], [startNewConsensusRound] and
    [monitorConsensusProgress] inside a [try].  No modelled method throws,
    so the [catch] branch with [handleConsensusError] is not entered and the
    run is the sequence of the three calls.  The console receives the text
    lines of the script and, through [broadcast], the messages the engines
    print. *)

Inductive ConsoleLine : Type :=
  | Log (text : string)
  | Broadcasting (message : ConsensusMessage.t).

Record Instances : Type := mkInstances {
  validator1Consensus : BFTConsensus;
  validator2Consensus : BFTConsensus;
  validator3Consensus : BFTConsensus;
  validator4Consensus : BFTConsensus
}.

Definition Script (A : Type) : Type :=
  Instances → A * Instances * list ConsoleLine.

Definition scriptRet {A} (a : A) : Script A := λ net, (a, net, []).

Definition scriptBind {A B} (c : Script A) (k : A → Script B) : Script B :=
  λ net,
    let '(a, net1, out1) := c net in
    let '(b, net2, out2) := k a net1 in
    (b, net2, out1 ++ out2).

#[global] Instance Script_ret : MRet Script := @scriptRet.
#[global] Instance Script_bind : MBind Script := λ A B k c, scriptBind c k.

Definition log (text : string) : Script unit := λ net, (tt, net, [Log text]).

(** A method call on one of the four engines. *)
Definition onValidator1 {A} (c : Eff A) : Script A :=
  λ net,
    let '(a, this, out) := c (validator1Consensus net) in
    (a,
     mkInstances this (validator2Consensus net) (validator3Consensus net)
       (validator4Consensus net),
     map Broadcasting out).

Definition onValidator2 {A} (c : Eff A) : Script A :=
  λ net,
    let '(a, this, out) := c (validator2Consensus net) in
    (a,
     mkInstances (validator1Consensus net) this (validator3Consensus net)
       (validator4Consensus net),
     map Broadcasting out).

Definition onValidator3 {A} (c : Eff A) : Script A :=
  λ net,
    let '(a, this, out) := c (validator3Consensus net) in
    (a,
     mkInstances (validator1Consensus net) (validator2Consensus net) this
       (validator4Consensus net),
     map Broadcasting out).

Definition onValidator4 {A} (c : Eff A) : Script A :=
  λ net,
    let '(a, this, out) := c (validator4Consensus net) in
    (a,
     mkInstances (validator1Consensus net) (validator2Consensus net)
       (validator3Consensus net) this,
     map Broadcasting out).

(** [const validators] and the four [new BFTConsensus(...)]. *)
Definition instances : Instances :=
  mkInstances (constructor "validator1" fourValidators)
    (constructor "validator2" fourValidators)
    (constructor "validator3" fourValidators)
    (constructor "validator4" fourValidators).

(** [const transactions]; the payload objects are written out as text. *)
Definition transactions : list Transaction.t :=
  [Transaction.mk "tx1" "{ from: alice, to: bob, amount: 100 }" "sig1";
   Transaction.mk "tx2" "{ from: bob, to: charlie, amount: 50 }" "sig2"].

Definition simulateConsensusRound (now : Z) : Script unit :=
  log "1. Proposing new block";;
  proposedBlock ← onValidator1 (proposeBlock transactions now);
  log "2. Validators sending PREPARE messages";;
  let prepareMessage :=
    ConsensusMessage.mk PREPARE (Block.height proposedBlock) "placeholder_hash"
      "validator2" "signature2" in
  onValidator1 (handleConsensusMessage prepareMessage);;
  onValidator3 (handleConsensusMessage prepareMessage);;
  onValidator4 (handleConsensusMessage prepareMessage);;
  log "3. Validators sending COMMIT messages";;
  let commitMessage :=
    ConsensusMessage.mk COMMIT (Block.height proposedBlock) "placeholder_hash"
      "validator2" "signature2" in
  onValidator1 (handleConsensusMessage commitMessage);;
  onValidator3 (handleConsensusMessage commitMessage);;
  onValidator4 (handleConsensusMessage commitMessage);;
  log "4. Block finalized".

Definition handleNetworkMessage (message : ConsensusMessage.t) : Script unit :=
  onValidator1 (handleConsensusMessage message);;
  onValidator2 (handleConsensusMessage message);;
  onValidator3 (handleConsensusMessage message);;
  onValidator4 (handleConsensusMessage message).

Definition startNewConsensusRound : Script unit :=
  let newRoundMessage :=
    ConsensusMessage.mk NEW_ROUND 2 "" "validator1" "signature1" in
  handleNetworkMessage newRoundMessage.

Definition monitorConsensusProgress : Script unit :=
  log "Monitoring consensus progress...".

(** The body of the [try] block; [now] is what [Date.now()] returns. *)
Definition exampleUsage (now : Z) : Script unit :=
  simulateConsensusRound now;;
  startNewConsensusRound;;
  monitorConsensusProgress.

(** ** Closed forms of the handlers

    Each method is a short straight-line program; running the monad gives
    the triple it computes.  The later results are read off these forms. *)

Lemma votes_addVote v hash tally :
  votes (addVote v hash tally) hash = votes tally hash ∪ {[v]}.
Proof. unfold votes, addVote. by rewrite lookup_insert_eq. Qed.

Lemma votes_addVote_ne v hash hash' tally :
  hash ≠ hash' → votes (addVote v hash tally) hash' = votes tally hash'.
Proof. intros Hne. unfold votes, addVote. by rewrite lookup_insert_ne. Qed.

Lemma addVote_already v hash tally S :
  tally !! hash = Some S → v ∈ S → addVote v hash tally = tally.
Proof.
  intros Hlook Hin. unfold addVote, votes. rewrite Hlook. cbn.
  apply insert_id. rewrite Hlook. f_equal.
  rewrite (comm_L (∪)). symmetry. by apply subseteq_union_1_L, singleton_subseteq_l.
Qed.

Lemma handlePrepareMessage_eq message this :
  handlePrepareMessage message this =
    if bool_decide (ConsensusMessage.validatorId message ∈ validators this) then
      let tally :=
        addVote (ConsensusMessage.validatorId message) (blockHash message)
          (prepareMessages this) in
      (tt, setPrepareMessages tally this,
       if (requiredConsensus this <=? count tally (blockHash message))%nat
       then [ConsensusMessage.mk COMMIT (currentHeight this + 1)
               (blockHash message) (validatorId this) "placeholder_signature"]
       else [])
    else (tt, this, []).
Proof.
  unfold handlePrepareMessage, verifyMessage, broadcastCommit, sign, count.
  cbv zeta. rewrite votes_addVote. unfold addVote, votes. eff_unfold.
  destruct this as [vs pm cm self cur req]. cbn.
  destruct (bool_decide (ConsensusMessage.validatorId message ∈ vs)); cbn;
    [|reflexivity].
  destruct (pm !! blockHash message) as [S|] eqn:E; cbn;
    rewrite ?lookup_insert_eq, ?insert_insert_eq, ?E; cbn;
    destruct (req <=? _)%nat; cbn; reflexivity.
Qed.

Lemma handleCommitMessage_eq message this :
  handleCommitMessage message this =
    if bool_decide (ConsensusMessage.validatorId message ∈ validators this) then
      let tally :=
        addVote (ConsensusMessage.validatorId message) (blockHash message)
          (commitMessages this) in
      if (requiredConsensus this <=? count tally (blockHash message))%nat
      then (tt,
            mkBFTConsensus (validators this) ∅ ∅ (validatorId this)
              (currentHeight this + 1) (requiredConsensus this),
            [ConsensusMessage.mk NEW_ROUND (currentHeight this + 1 + 1) ""
               (validatorId this) ""])
      else (tt, setCommitMessages tally this, [])
    else (tt, this, []).
Proof.
  unfold handleCommitMessage, verifyMessage, finalizeBlock, count.
  cbv zeta. rewrite votes_addVote. unfold addVote, votes. eff_unfold.
  destruct this as [vs pm cm self cur req]. cbn.
  destruct (bool_decide (ConsensusMessage.validatorId message ∈ vs)); cbn;
    [|reflexivity].
  destruct (cm !! blockHash message) as [S|] eqn:E; cbn;
    rewrite ?lookup_insert_eq, ?insert_insert_eq, ?E; cbn;
    destruct (req <=? _)%nat; cbn; reflexivity.
Qed.

Lemma startNewRound_eq height this :
  startNewRound height this =
    if (height <=? currentHeight this)%Z then (tt, this, [])
    else (tt, setCommitMessages ∅ (setPrepareMessages ∅ this), []).
Proof.
  unfold startNewRound. eff_unfold. cbn.
  by destruct (height <=? currentHeight this)%Z.
Qed.

Lemma proposeBlock_eq transactions now this :
  proposeBlock transactions now this =
    (Block.mk (currentHeight this + 1) "placeholder_hash" transactions now
       (validatorId this) ∅,
     this,
     [ConsensusMessage.mk PREPARE (currentHeight this + 1) "placeholder_hash"
        (validatorId this) "placeholder_signature"]).
Proof. reflexivity. Qed.

(** ** Histories and the invariant of reachable engines *)

Lemma handleConsensusMessage_eq message this :
  handleConsensusMessage message this =
    match type message with
    | PREPARE => handlePrepareMessage message this
    | COMMIT => handleCommitMessage message this
    | NEW_ROUND => startNewRound (blockHeight message) this
    end.
Proof. unfold handleConsensusMessage. by destruct (type message). Qed.

Lemma final_run_nil this : final (run [] this) = this.
Proof. reflexivity. Qed.

Lemma run_cons c calls this :
  run (c :: calls) this =
    (tt, final (run calls (final (call c this))),
     (emitted (call c this) ++ emitted (run calls (final (call c this))))%list).
Proof.
  cbn [run]. eff_unfold.
  destruct (call c this) as [[[] this1] out1]. cbn.
  by destruct (run calls this1) as [[[] this2] out2].
Qed.

Lemma final_run_cons c calls this :
  final (run (c :: calls) this) = final (run calls (final (call c this))).
Proof. by rewrite run_cons. Qed.

Lemma emitted_run_cons c calls this :
  emitted (run (c :: calls) this) =
    (emitted (call c this) ++ emitted (run calls (final (call c this))))%list.
Proof. by rewrite run_cons. Qed.

Lemma final_call_propose transactions now this :
  final (call (ProposeBlock transactions now) this) = this.
Proof. reflexivity. Qed.

Lemma votes_empty hash : votes ∅ hash = ∅.
Proof. unfold votes. by rewrite lookup_empty. Qed.

Lemma count_empty hash : count ∅ hash = 0.
Proof. unfold count. by rewrite votes_empty, size_empty. Qed.

Lemma votes_addVote_subseteq v hash hash' tally (members : gset string) :
  v ∈ members → votes tally hash' ⊆ members →
  votes (addVote v hash tally) hash' ⊆ members.
Proof.
  intros Hv Hsub. destruct (decide (hash = hash')) as [<-|Hne].
  - rewrite votes_addVote. apply union_subseteq. split; [done|].
    by apply singleton_subseteq_l.
  - by rewrite votes_addVote_ne.
Qed.

Lemma invariant_constructor self initialValidators :
  invariant (constructor self initialValidators).
Proof.
  split; cbn; intros; rewrite ?count_empty, ?votes_empty; [done|lia|done|done].
Qed.

Lemma invariant_handleConsensusMessage message this :
  invariant this → invariant (final (handleConsensusMessage message this)).
Proof.
  intros [Hthr Hbelow Hprep Hcomm].
  rewrite handleConsensusMessage_eq. destruct (type message).
  - rewrite handlePrepareMessage_eq. case_bool_decide; [|by split].
    split; cbn; [done|done| |done].
    intros hash. by apply votes_addVote_subseteq.
  - rewrite handleCommitMessage_eq. case_bool_decide; [|by split].
    cbv zeta. destruct (_ <=? _)%nat eqn:Hleb.
    + split; cbn; intros; rewrite ?count_empty, ?votes_empty; [done|lia|done|done].
    + apply Nat.leb_gt in Hleb.
      split; cbn; [done| |done|].
      * intros hash. destruct (decide (blockHash message = hash)) as [<-|Hne];
          [done|]. unfold count. rewrite votes_addVote_ne by done. apply Hbelow.
      * intros hash. by apply votes_addVote_subseteq.
  - rewrite startNewRound_eq. destruct (_ <=? _)%Z; [by split|].
    split; cbn; intros; rewrite ?count_empty, ?votes_empty; [done|lia|done|done].
Qed.

Lemma invariant_call c this : invariant this → invariant (final (call c this)).
Proof.
  destruct c as [transactions now|message]; [done|].
  apply invariant_handleConsensusMessage.
Qed.

Lemma invariant_run calls this :
  invariant this → invariant (final (run calls this)).
Proof.
  revert this. induction calls as [|c calls IH]; intros this Hinv; [done|].
  rewrite final_run_cons. by apply IH, invariant_call.
Qed.

Lemma reachable_invariant this : reachable this → invariant this.
Proof.
  intros (self & initialValidators & calls & <-).
  apply invariant_run, invariant_constructor.
Qed.

Lemma reachable_constructor self initialValidators :
  reachable (constructor self initialValidators).
Proof. by exists self, initialValidators, []. Qed.

Lemma run_app calls1 calls2 this :
  final (run (calls1 ++ calls2) this) = final (run calls2 (final (run calls1 this))).
Proof.
  revert this. induction calls1 as [|c calls1 IH]; intros this; [done|].
  cbn [app]. by rewrite !final_run_cons, IH.
Qed.

Lemma reachable_call c this : reachable this → reachable (final (call c this)).
Proof.
  intros (self & initialValidators & calls & <-).
  exists self, initialValidators, (calls ++ [c]).
  by rewrite run_app, final_run_cons.
Qed.

(** The constructor's fields that no method assigns. *)
Lemma call_fixed_fields c this :
  validators (final (call c this)) = validators this ∧
  validatorId (final (call c this)) = validatorId this ∧
  requiredConsensus (final (call c this)) = requiredConsensus this.
Proof.
  destruct c as [transactions now|message]; [done|].
  cbn [call]. rewrite handleConsensusMessage_eq. destruct (type message).
  - rewrite handlePrepareMessage_eq. by case_bool_decide.
  - rewrite handleCommitMessage_eq. case_bool_decide; [|done].
    cbv zeta. by destruct (_ <=? _)%nat.
  - rewrite startNewRound_eq. by destruct (_ <=? _)%Z.
Qed.

Lemma run_fixed_fields calls this :
  validators (final (run calls this)) = validators this ∧
  validatorId (final (run calls this)) = validatorId this ∧
  requiredConsensus (final (run calls this)) = requiredConsensus this.
Proof.
  revert this. induction calls as [|c calls IH]; intros this; [done|].
  rewrite final_run_cons.
  destruct (IH (final (call c this))) as (-> & -> & ->).
  apply call_fixed_fields.
Qed.

(** ** The quorum threshold *)

Example engine1_threshold : requiredConsensus engine1 = 3.
Proof. vm_compute. reflexivity. Qed.


Lemma size_list_to_set_remove_dups (l : list string) :
  size (list_to_set l : gset string) = length (remove_dups l).
Proof.
  rewrite <- (size_list_to_set (C := gset string)) by apply NoDup_remove_dups.
  f_equal. apply set_eq. intros x.
  by rewrite !elem_of_list_to_set, elem_of_remove_dups.
Qed.

(** Two sets of validators that both reach the threshold share a member. *)
Lemma quorums_intersect this (Q1 Q2 : gset string) :
  invariant this →
  Q1 ⊆ validators this → Q2 ⊆ validators this →
  requiredConsensus this ≤ size Q1 → requiredConsensus this ≤ size Q2 →
  ∃ v, v ∈ Q1 ∧ v ∈ Q2.
Proof.
  intros [Hthr _ _ _] Hsub1 Hsub2 Hq1 Hq2.
  destruct (decide (Q1 ∩ Q2 = ∅)) as [Hempty|Hne].
  - assert (size (Q1 ∪ Q2) = size Q1 + size Q2) as Hsum
      by (by apply size_union, disjoint_intersection_L).
    assert (size (Q1 ∪ Q2) ≤ size (validators this)) as Hle
      by (by apply subseteq_size, union_subseteq).
    pose proof (Nat.div_mod_eq (size (validators this) * 2) 3) as Hdiv.
    pose proof (Nat.mod_upper_bound (size (validators this) * 2) 3) as Hmod.
    lia.
  - apply set_choose_L in Hne as [v Hv].
    apply elem_of_intersection in Hv. by exists v.
Qed.

(** C4: the threshold the constructor stores is floor(2n/3)+1 for n the
    number of distinct identities of the initial validator list, and it is
    still that number after any history of public calls. *)
Theorem requiredConsensus_is_two_thirds_plus_one self initialValidators calls :
  let n := length (remove_dups initialValidators) in
  size (validators (constructor self initialValidators)) = n ∧
  requiredConsensus (constructor self initialValidators) = 2 * n / 3 + 1 ∧
  requiredConsensus (final (run calls (constructor self initialValidators)))
    = 2 * n / 3 + 1.
Proof.
  intros n.
  assert (requiredConsensus (constructor self initialValidators) = 2 * n / 3 + 1)
    as Hctor.
  { cbn. rewrite size_list_to_set_remove_dups. fold n.
    by rewrite (Nat.mul_comm n 2). }
  split; [apply size_list_to_set_remove_dups|]. split; [done|].
  by destruct (run_fixed_fields calls (constructor self initialValidators))
    as (_ & _ & ->).
Qed.

(** ** Proposing a block *)

(** C8, as the code has it: the block returned by [proposeBlock] has height
    current height + 1, the engine's own id as proposer and an empty
    signatures map; the call broadcasts one PREPARE message for that height
    in the engine's name and leaves the engine, its prepare tally included,
    as it was: the proposer's own vote is not recorded. *)
Theorem proposeBlock_returns_block_and_broadcasts transactions now this :
  let r := proposeBlock transactions now this in
  Block.height (result r) = (currentHeight this + 1)%Z ∧
  Block.proposer (result r) = validatorId this ∧
  Block.signatures (result r) = ∅ ∧
  Block.transactions (result r) = transactions ∧
  final r = this ∧
  emitted r =
    [ConsensusMessage.mk PREPARE (currentHeight this + 1) "placeholder_hash"
       (validatorId this) "placeholder_signature"].
Proof. intros r. subst r. by rewrite proposeBlock_eq. Qed.

(** C8, refuted as stated: after the first proposal of a fresh engine the
    prepare tally of the proposed block is empty, not of count 1. *)
Lemma proposeBlock_records_no_vote :
  let r := proposeBlock [] 0 engine1 in
  emitted r =
    [ConsensusMessage.mk PREPARE 1 "placeholder_hash" "validator1"
       "placeholder_signature"] ∧
  prepareMessages (final r) = ∅ ∧
  ¬ count (prepareMessages (final r)) "placeholder_hash" = 1.
Proof. vm_compute. split; [done|]. split; [done|]. discriminate. Qed.

(** ** Finalization *)

Lemma setPrepareMessages_same this :
  setPrepareMessages (prepareMessages this) this = this.
Proof. by destruct this. Qed.

Lemma setCommitMessages_same this :
  setCommitMessages (commitMessages this) this = this.
Proof. by destruct this. Qed.

Example engine1AtHeight1_height : currentHeight engine1AtHeight1 = 1%Z.
Proof. by vm_compute. Qed.

Example threeCommits_emitted :
  emitted (run threeCommits engine1) =
    [ConsensusMessage.mk NEW_ROUND 2 "" "validator1" ""].
Proof. by vm_compute. Qed.

(** A COMMIT vote that does not complete a quorum is only recorded. *)
Lemma handleCommitMessage_below_quorum message this :
  ConsensusMessage.validatorId message ∈ validators this →
  ¬ requiredConsensus this ≤
      size (votes (commitMessages this) (blockHash message)
              ∪ {[ConsensusMessage.validatorId message]}) →
  handleCommitMessage message this =
    (tt,
     setCommitMessages
       (addVote (ConsensusMessage.validatorId message) (blockHash message)
          (commitMessages this)) this,
     []).
Proof.
  intros Hmember Hbelow. apply Nat.nle_gt in Hbelow.
  rewrite handleCommitMessage_eq.
  rewrite bool_decide_eq_true_2 by done. cbv zeta.
  unfold count. rewrite votes_addVote.
  by rewrite (proj2 (Nat.leb_gt _ _) Hbelow).
Qed.

(** C6: a COMMIT vote of a member that brings the tally of its hash to the
    threshold finalizes: the current height grows by exactly one, both
    tallies are emptied, and one NEW_ROUND message is broadcast whose height
    is one above the finalized height, the finalized height being the new
    current height, which is the height [proposeBlock] gave the block. *)
Theorem commit_quorum_finalizes message this :
  type message = COMMIT →
  ConsensusMessage.validatorId message ∈ validators this →
  requiredConsensus this ≤
    size (votes (commitMessages this) (blockHash message)
            ∪ {[ConsensusMessage.validatorId message]}) →
  let r := handleConsensusMessage message this in
  currentHeight (final r) = (currentHeight this + 1)%Z ∧
  prepareMessages (final r) = ∅ ∧
  commitMessages (final r) = ∅ ∧
  emitted r =
    [ConsensusMessage.mk NEW_ROUND (currentHeight (final r) + 1) ""
       (validatorId this) ""] ∧
  (∀ transactions now,
     Block.height (result (proposeBlock transactions now this))
       = currentHeight (final r)).
Proof.
  intros Htype Hmember Hquorum r. subst r.
  rewrite handleConsensusMessage_eq, Htype, handleCommitMessage_eq.
  rewrite bool_decide_eq_true_2 by done. cbv zeta.
  unfold count. rewrite votes_addVote.
  by rewrite (proj2 (Nat.leb_le _ _) Hquorum).
Qed.

Lemma commit_quorum_finalizes_witness :
  let this := final (run [HandleConsensusMessage (vote COMMIT 1 "h" "validator1");
                          HandleConsensusMessage (vote COMMIT 1 "h" "validator2")]
                       engine1) in
  let r := handleConsensusMessage (vote COMMIT 1 "h" "validator3") this in
  currentHeight this = 0%Z ∧
  currentHeight (final r) = 1%Z ∧
  prepareMessages (final r) = ∅ ∧
  commitMessages (final r) = ∅ ∧
  emitted r = [ConsensusMessage.mk NEW_ROUND 2 "" "validator1" ""].
Proof.
  intros this r.
  destruct (commit_quorum_finalizes (vote COMMIT 1 "h" "validator3") this)
    as (Hheight & Hprepare & Hcommit & Hemitted & _).
  - reflexivity.
  - by vm_compute.
  - vm_compute. lia.
  - fold r in Hheight, Hprepare, Hcommit, Hemitted.
    split; [by vm_compute|]. split; [by rewrite Hheight|].
    split; [done|]. split; [done|].
    rewrite Hemitted, Hheight. by vm_compute.
Defined.

(** ** Repeated votes *)

Lemma elem_of_votes v tally hash :
  v ∈ votes tally hash → ∃ S, tally !! hash = Some S ∧ v ∈ S.
Proof.
  unfold votes. destruct (tally !! hash) as [S|]; cbn; [by exists S|].
  intros Hin. by apply not_elem_of_empty in Hin.
Qed.

(** A vote that is in the tally of its phase: handling it again leaves that
    tally, hence its count, as it was; below the threshold the engine is
    unchanged and nothing is emitted. *)
Lemma recorded_vote_again_changes_nothing message this :
  reachable this →
  type message ≠ NEW_ROUND →
  ConsensusMessage.validatorId message
    ∈ votes (tallyOf (type message) this) (blockHash message) →
  let r := handleConsensusMessage message this in
  tallyOf (type message) (final r) = tallyOf (type message) this ∧
  count (tallyOf (type message) (final r)) (blockHash message)
    = count (tallyOf (type message) this) (blockHash message) ∧
  (count (tallyOf (type message) this) (blockHash message)
     < requiredConsensus this →
   final r = this ∧ emitted r = []).
Proof.
  intros Hreach Htype Hvoted r. subst r.
  apply reachable_invariant in Hreach as [_ Hbelow _ _].
  apply elem_of_votes in Hvoted as (S & Hlook & Hin).
  rewrite handleConsensusMessage_eq.
  destruct (type message) eqn:Ht; [| |done]; cbn [tallyOf] in *.
  - rewrite handlePrepareMessage_eq. case_bool_decide; [|done].
    cbv zeta. rewrite (addVote_already _ _ _ S) by done.
    rewrite setPrepareMessages_same. cbn.
    split; [done|]. split; [done|]. intros Hlt.
    by rewrite (proj2 (Nat.leb_gt _ _) Hlt).
  - rewrite handleCommitMessage_eq. case_bool_decide; [|done].
    cbv zeta. rewrite (addVote_already _ _ _ S) by done.
    rewrite (proj2 (Nat.leb_gt _ _) (Hbelow (blockHash message))).
    by rewrite setCommitMessages_same.
Qed.





(** ** Signatures *)

(** The verdict of [verifyMessage] is membership in the validator set. *)
Lemma verifyMessage_eq message this :
  verifyMessage message this =
    (bool_decide (ConsensusMessage.validatorId message ∈ validators this),
     this, []).
Proof. reflexivity. Qed.

(** C10: two PREPARE or COMMIT messages that differ at most in their
    signature are handled identically, state and emissions alike;
    verification gives both the same verdict and accepts them when their
    validator is a member of the validator set, whatever the signatures; so
    the vote of a member is
    always taken: it is in the tally afterwards, or, for a COMMIT that
    completes a quorum, it has finalized the height. *)
Theorem signature_is_never_inspected message1 message2 this :
  type message1 ≠ NEW_ROUND →
  type message1 = type message2 →
  blockHeight message1 = blockHeight message2 →
  blockHash message1 = blockHash message2 →
  ConsensusMessage.validatorId message1 = ConsensusMessage.validatorId message2 →
  let r := handleConsensusMessage message1 this in
  r = handleConsensusMessage message2 this ∧
  result (verifyMessage message1 this) = result (verifyMessage message2 this) ∧
  (ConsensusMessage.validatorId message1 ∈ validators this →
   result (verifyMessage message1 this) = true ∧
   (ConsensusMessage.validatorId message1
      ∈ votes (tallyOf (type message1) (final r)) (blockHash message1) ∨
    type message1 = COMMIT ∧
    currentHeight (final r) = (currentHeight this + 1)%Z)).
Proof.
  intros Htype Heqt Heqh Heqb Heqv r. subst r.
  rewrite !verifyMessage_eq, !handleConsensusMessage_eq. cbn [result fst snd].
  rewrite <- Heqt, !handlePrepareMessage_eq, !handleCommitMessage_eq.
  rewrite <- Heqb, <- Heqv.
  split; [by destruct (type message1)|]. split; [done|]. intros Hmember.
  rewrite bool_decide_eq_true_2 by done. split; [done|].
  destruct (type message1); [| |done]; cbv zeta.
  - left. cbn. rewrite votes_addVote. set_solver.
  - destruct (_ <=? _) eqn:Hleb; [by right|].
    left. cbn. rewrite votes_addVote. set_solver.
Qed.

Lemma signature_is_never_inspected_witness :
  let message1 := ConsensusMessage.mk PREPARE 1 "h" "validator2" "signature2" in
  let message2 := ConsensusMessage.mk PREPARE 1 "h" "validator2" "forged" in
  handleConsensusMessage message1 engine1 = handleConsensusMessage message2 engine1 ∧
  "validator2" ∈ votes (prepareMessages (final (handleConsensusMessage message2 engine1))) "h".
Proof.
  intros message1 message2.
  destruct (signature_is_never_inspected message1 message2 engine1)
    as (Hsame & _ & Haccepted); [discriminate|reflexivity..|].
  split; [done|]. by vm_compute.
Defined.

(** ** Conflicting votes *)

(** C1, refuted as stated: validator 2 has voted PREPARE for hash A; its
    PREPARE for hash B is recorded all the same, so it is not the case that
    A's votes contain it and B's do not. *)
Lemma conflicting_prepare_is_recorded :
  let this := final (handleConsensusMessage (vote PREPARE 1 "A" "validator2") engine1) in
  let r := handleConsensusMessage (vote PREPARE 1 "B" "validator2") this in
  "validator2" ∈ votes (prepareMessages this) "A" ∧
  "validator2" ∈ votes (prepareMessages (final r)) "B" ∧
  ¬ ("validator2" ∈ votes (prepareMessages (final r)) "A" ∧
     "validator2" ∉ votes (prepareMessages (final r)) "B").
Proof.
  intros this r.
  assert ("validator2" ∈ votes (prepareMessages (final r)) "B") as HinB
    by (by vm_compute).
  split; [by vm_compute|]. split; [exact HinB|].
  intros [_ HnotB]. exact (HnotB HinB).
Qed.

(** C1, as the code has it: in a reachable engine, when a validator already
    recorded for hash A in a phase votes for another hash B in that phase,
    the vote is recorded next to the first one: afterwards both A's and B's
    votes contain the validator.  The one exception is a COMMIT vote that
    brings B to the threshold, which finalizes and empties every tally.  No
    equivocation is reported: a PREPARE emits nothing but the COMMIT
    broadcast due when B's count is at the threshold, a COMMIT below the
    threshold emits nothing. *)
Theorem conflicting_vote_is_recorded message hashA this :
  reachable this →
  type message ≠ NEW_ROUND →
  ConsensusMessage.validatorId message
    ∈ votes (tallyOf (type message) this) hashA →
  blockHash message ≠ hashA →
  ¬ (type message = COMMIT ∧
     requiredConsensus this ≤
       size (votes (commitMessages this) (blockHash message)
               ∪ {[ConsensusMessage.validatorId message]})) →
  let r := handleConsensusMessage message this in
  ConsensusMessage.validatorId message
    ∈ votes (tallyOf (type message) (final r)) hashA ∧
  ConsensusMessage.validatorId message
    ∈ votes (tallyOf (type message) (final r)) (blockHash message) ∧
  emitted r =
    match type message with
    | PREPARE =>
        if requiredConsensus this <=?
             size (votes (prepareMessages this) (blockHash message)
                     ∪ {[ConsensusMessage.validatorId message]})
        then [ConsensusMessage.mk COMMIT (currentHeight this + 1)
                (blockHash message) (validatorId this) "placeholder_signature"]
        else []
    | _ => []
    end.
Proof.
  intros Hreach Htype Hvoted Hne Hnoquorum r. subst r.
  apply reachable_invariant in Hreach as [_ _ Hprep Hcomm].
  rewrite handleConsensusMessage_eq.
  destruct (type message) eqn:Ht; [| |done]; cbn [tallyOf] in *.
  - rewrite handlePrepareMessage_eq.
    rewrite bool_decide_eq_true_2 by (by eapply Hprep).
    cbn. unfold count. rewrite votes_addVote, votes_addVote_ne by done.
    split; [done|]. split; [|done].
    apply elem_of_union_r. by apply elem_of_singleton.
  - rewrite (handleCommitMessage_below_quorum message this).
    + cbn. rewrite votes_addVote, votes_addVote_ne by done.
      split; [done|]. split; [|done].
      apply elem_of_union_r. by apply elem_of_singleton.
    + by eapply Hcomm.
    + intros Hge. by apply Hnoquorum.
Qed.

Lemma conflicting_vote_is_recorded_witness :
  let first := vote PREPARE 1 "A" "validator2" in
  let second := vote PREPARE 1 "B" "validator2" in
  let this := final (run [HandleConsensusMessage first] engine1) in
  let r := handleConsensusMessage second this in
  "validator2" ∈ votes (prepareMessages (final r)) "A" ∧
  "validator2" ∈ votes (prepareMessages (final r)) "B" ∧
  emitted r = [].
Proof.
  intros first second this r.
  destruct (conflicting_vote_is_recorded second "A" this)
    as (HinA & HinB & Hemitted).
  - by exists "validator1", fourValidators, [HandleConsensusMessage first].
  - discriminate.
  - by vm_compute.
  - discriminate.
  - intros [Hcommit _]. discriminate Hcommit.
  - split; [exact HinA|]. split; [exact HinB|].
    fold r in Hemitted. rewrite Hemitted. by vm_compute.
Defined.

(** ** Stale messages *)

(** A vote whose validator is not in the validator set is dropped. *)
Lemma vote_of_non_member_is_dropped message this :
  type message ≠ NEW_ROUND →
  ConsensusMessage.validatorId message ∉ validators this →
  handleConsensusMessage message this = (tt, this, []).
Proof.
  intros Htype Hnot. rewrite handleConsensusMessage_eq.
  destruct (type message); [| |done].
  - rewrite handlePrepareMessage_eq. by rewrite bool_decide_eq_false_2.
  - rewrite handleCommitMessage_eq. by rewrite bool_decide_eq_false_2.
Qed.

(** The vote handlers never read the height of a message. *)
Lemma vote_height_is_not_read height message this :
  type message ≠ NEW_ROUND →
  handleConsensusMessage (ConsensusMessage.withBlockHeight height message) this
    = handleConsensusMessage message this.
Proof.
  intros Htype. rewrite !handleConsensusMessage_eq.
  rewrite !handlePrepareMessage_eq, !handleCommitMessage_eq. cbn.
  by destruct (type message).
Qed.

(** C2, refuted as stated: at height 1 a PREPARE message of validator 2 for
    height 0 changes the prepare tallies. *)
Lemma stale_prepare_is_recorded :
  let this := engine1AtHeight1 in
  let message := vote PREPARE 0 "h" "validator2" in
  (blockHeight message < currentHeight this)%Z ∧
  votes (prepareMessages this) "h" = ∅ ∧
  "validator2" ∈ votes (prepareMessages (final (handleConsensusMessage message this))) "h" ∧
  prepareMessages (final (handleConsensusMessage message this))
    ≠ prepareMessages this.
Proof.
  intros this message.
  assert ("validator2" ∈ votes (prepareMessages
            (final (handleConsensusMessage message this))) "h") as Hin
    by (by vm_compute).
  assert (votes (prepareMessages this) "h" = ∅) as Hempty by (by vm_compute).
  split; [by vm_compute|]. split; [exact Hempty|]. split; [exact Hin|].
  intros Heq. rewrite Heq, Hempty in Hin. by apply not_elem_of_empty in Hin.
Qed.

(** C2, as the code has it: a message below the current height changes no
    tally, and nothing else, when it is a NEW_ROUND message or when its
    validator is not in the validator set.  A stale vote of a member of the
    validator set is taken like any other vote: a PREPARE is recorded in the
    prepare tally of its hash; a COMMIT is recorded in the commit tally of
    its hash or, when it brings the hash to the threshold, finalizes (height
    plus one, both tallies emptied).  The vote handlers do not read the
    height: the outcome is the one of the same vote carrying any other
    height. *)
Theorem stale_message_frame message this :
  (blockHeight message < currentHeight this)%Z →
  let r := handleConsensusMessage message this in
  let v := ConsensusMessage.validatorId message in
  let hash := blockHash message in
  (type message = NEW_ROUND ∨ v ∉ validators this → r = (tt, this, [])) ∧
  (type message = PREPARE → v ∈ validators this →
   v ∈ votes (prepareMessages (final r)) hash ∧
   prepareMessages (final r) = addVote v hash (prepareMessages this) ∧
   commitMessages (final r) = commitMessages this ∧
   currentHeight (final r) = currentHeight this) ∧
  (type message = COMMIT → v ∈ validators this →
   size (votes (commitMessages this) hash ∪ {[v]}) < requiredConsensus this →
   v ∈ votes (commitMessages (final r)) hash ∧
   commitMessages (final r) = addVote v hash (commitMessages this) ∧
   prepareMessages (final r) = prepareMessages this ∧
   currentHeight (final r) = currentHeight this) ∧
  (type message = COMMIT → v ∈ validators this →
   requiredConsensus this ≤ size (votes (commitMessages this) hash ∪ {[v]}) →
   currentHeight (final r) = (currentHeight this + 1)%Z ∧
   prepareMessages (final r) = ∅ ∧
   commitMessages (final r) = ∅) ∧
  (type message ≠ NEW_ROUND →
   ∀ height,
     r = handleConsensusMessage
           (ConsensusMessage.withBlockHeight height message) this).
Proof.
  intros Hstale r v hash. subst r v hash.
  split; [|split; [|split; [|split]]].
  - intros [Hnew|Hnot].
    + rewrite handleConsensusMessage_eq, Hnew, startNewRound_eq.
      by rewrite (proj2 (Z.leb_le _ _)) by lia.
    + destruct (type message) eqn:Htype.
      * apply vote_of_non_member_is_dropped; [by rewrite Htype|done].
      * apply vote_of_non_member_is_dropped; [by rewrite Htype|done].
      * rewrite handleConsensusMessage_eq, Htype, startNewRound_eq.
        by rewrite (proj2 (Z.leb_le _ _)) by lia.
  - intros Htype Hmember.
    rewrite handleConsensusMessage_eq, Htype, handlePrepareMessage_eq.
    rewrite bool_decide_eq_true_2 by done. cbn.
    split; [|done]. rewrite votes_addVote.
    apply elem_of_union_r. by apply elem_of_singleton.
  - intros Htype Hmember Hbelow.
    rewrite handleConsensusMessage_eq, Htype.
    rewrite handleCommitMessage_below_quorum; [|done|by apply Nat.lt_nge].
    cbn. split; [|done]. rewrite votes_addVote.
    apply elem_of_union_r. by apply elem_of_singleton.
  - intros Htype Hmember Hquorum.
    rewrite handleConsensusMessage_eq, Htype, handleCommitMessage_eq.
    rewrite bool_decide_eq_true_2 by done. cbv zeta.
    unfold count. rewrite votes_addVote.
    by rewrite (proj2 (Nat.leb_le _ _) Hquorum).
  - intros Htype height. symmetry. by apply vote_height_is_not_read.
Qed.

Lemma stale_message_frame_witness :
  let stale := ConsensusMessage.mk NEW_ROUND 0 "" "validator2" "signature" in
  let outsider := vote PREPARE 0 "h" "mallory" in
  let member := vote PREPARE 0 "h" "validator2" in
  handleConsensusMessage stale engine1AtHeight1 = (tt, engine1AtHeight1, []) ∧
  handleConsensusMessage outsider engine1AtHeight1 = (tt, engine1AtHeight1, []) ∧
  "validator2"
    ∈ votes (prepareMessages (final (handleConsensusMessage member engine1AtHeight1)))
        "h".
Proof.
  intros stale outsider member. split; [|split].
  - apply (stale_message_frame stale engine1AtHeight1); [by vm_compute|].
    by left.
  - apply (stale_message_frame outsider engine1AtHeight1); [by vm_compute|].
    right. by vm_compute.
  - destruct (stale_message_frame member engine1AtHeight1) as (_ & Hprepare & _);
      [by vm_compute|].
    destruct Hprepare as [Hrecorded _]; [reflexivity|by vm_compute|].
    exact Hrecorded.
Defined.

(** ** The COMMIT broadcast *)

(** C3, refuted as stated: with four validators the third PREPARE vote for a
    hash makes the engine broadcast COMMIT, and the fourth one, from one more
    distinct validator, makes it broadcast COMMIT again. *)
Lemma fourth_prepare_emits_commit_again :
  let commit := ConsensusMessage.mk COMMIT 1 "h" "validator1" "placeholder_signature" in
  let this := final (run threePrepares engine1) in
  emitted (run threePrepares engine1) = [commit] ∧
  ("validator4" ∉ votes (prepareMessages this) "h") ∧
  emitted (handleConsensusMessage (vote PREPARE 1 "h" "validator4") this) = [commit] ∧
  emitted (handleConsensusMessage (vote PREPARE 1 "h" "validator4") this) ≠ [].
Proof.
  intros commit this.
  assert (emitted (handleConsensusMessage (vote PREPARE 1 "h" "validator4") this)
            = [commit]) as Hagain by (by vm_compute).
  split; [by vm_compute|]. split; [by vm_compute|]. split; [exact Hagain|].
  rewrite Hagain. discriminate.
Qed.

(** C3, as the code has it: a PREPARE vote of a member makes the engine
    broadcast one COMMIT message for the hash whenever the count of the hash,
    the vote included, is at least the threshold, and nothing otherwise.  The
    broadcast is not tied to the first crossing: once the count of a hash has
    reached the threshold, every further PREPARE vote of a member for it,
    new or repeated, is answered by another COMMIT. *)
Theorem prepare_emits_commit_at_or_above_quorum message this :
  type message = PREPARE →
  ConsensusMessage.validatorId message ∈ validators this →
  let r := handleConsensusMessage message this in
  let commit :=
    ConsensusMessage.mk COMMIT (currentHeight this + 1) (blockHash message)
      (validatorId this) "placeholder_signature" in
  emitted r =
    (if requiredConsensus this <=?
          size (votes (prepareMessages this) (blockHash message)
                  ∪ {[ConsensusMessage.validatorId message]})
     then [commit] else []) ∧
  (requiredConsensus this ≤ count (prepareMessages this) (blockHash message) →
   emitted r = [commit]).
Proof.
  intros Htype Hmember r commit. subst r commit.
  rewrite handleConsensusMessage_eq, Htype, handlePrepareMessage_eq.
  rewrite bool_decide_eq_true_2 by done. cbn.
  unfold count at 1. rewrite votes_addVote. split; [done|].
  intros Hquorum. rewrite (proj2 (Nat.leb_le _ _)); [done|].
  etrans; [exact Hquorum|]. unfold count. apply subseteq_size.
  rewrite votes_addVote. intros v Hv. by apply elem_of_union_l.
Qed.

Lemma prepare_emits_commit_at_or_above_quorum_witness :
  let this := final (run threePrepares engine1) in
  requiredConsensus this ≤ count (prepareMessages this) "h" ∧
  emitted (handleConsensusMessage (vote PREPARE 1 "h" "validator2") this) =
    [ConsensusMessage.mk COMMIT 1 "h" "validator1" "placeholder_signature"].
Proof.
  intros this.
  assert (requiredConsensus this ≤ count (prepareMessages this) "h") as Hquorum
    by (vm_compute; lia).
  split; [exact Hquorum|].
  destruct (prepare_emits_commit_at_or_above_quorum
              (vote PREPARE 1 "h" "validator2") this) as [_ Hagain].
  - reflexivity.
  - by vm_compute.
  - by rewrite (Hagain Hquorum).
Defined.

(** ** NEW_ROUND *)

(** C5, refuted as stated: an engine at height 1 that receives
    NEW_ROUND(height=3) is still at height 1 afterwards. *)
Lemma new_round_keeps_height :
  let this := engine1AtHeight1 in
  let r := handleConsensusMessage
             (ConsensusMessage.mk NEW_ROUND 3 "" "validator2" "signature2") this in
  currentHeight this = 1%Z ∧
  currentHeight (final r) = 1%Z ∧
  ¬ (currentHeight this < currentHeight (final r))%Z.
Proof. vm_compute. split; [done|]. split; [done|]. by intros H. Qed.

(** C5, as the code has it: a NEW_ROUND message whose height exceeds the
    current height empties the prepare and the commit tallies; the current
    height and every other field stay as they were, and nothing is
    emitted. *)
Theorem new_round_clears_tallies message this :
  type message = NEW_ROUND →
  (currentHeight this < blockHeight message)%Z →
  let r := handleConsensusMessage message this in
  prepareMessages (final r) = ∅ ∧
  commitMessages (final r) = ∅ ∧
  currentHeight (final r) = currentHeight this ∧
  validators (final r) = validators this ∧
  validatorId (final r) = validatorId this ∧
  requiredConsensus (final r) = requiredConsensus this ∧
  emitted r = [].
Proof.
  intros Htype Hhigher r. subst r.
  rewrite handleConsensusMessage_eq, Htype, startNewRound_eq.
  by rewrite (proj2 (Z.leb_gt _ _)) by lia.
Qed.

Lemma new_round_clears_tallies_witness :
  let this := final (run [HandleConsensusMessage (vote PREPARE 1 "h" "validator2")]
                       engine1) in
  let r := handleConsensusMessage
             (ConsensusMessage.mk NEW_ROUND 3 "" "validator2" "signature2") this in
  count (prepareMessages this) "h" = 1 ∧
  prepareMessages (final r) = ∅ ∧
  commitMessages (final r) = ∅ ∧
  currentHeight (final r) = currentHeight this.
Proof.
  intros this r.
  destruct (new_round_clears_tallies
              (ConsensusMessage.mk NEW_ROUND 3 "" "validator2" "signature2") this)
    as (Hprepare & Hcommit & Hheight & _).
  - reflexivity.
  - by vm_compute.
  - split; [by vm_compute|]. by split; [|split].
Defined.

(** ** Messages of non-members *)

(** C7, the code at the failing input: a NEW_ROUND message whose validator is
    not in the validator set empties the prepare tallies of an engine that
    had recorded a vote.  Votes of the same sender are dropped
    ([vote_of_non_member_is_dropped]); [handleConsensusMessage] passes
    NEW_ROUND to [startNewRound] without calling [verifyMessage]. *)
Lemma new_round_of_non_member_clears_tallies :
  let this := final (run [HandleConsensusMessage (vote PREPARE 1 "h" "validator2")]
                       engine1) in
  let message := ConsensusMessage.mk NEW_ROUND 1 "" "mallory" "" in
  ("mallory" ∉ validators this) ∧
  votes (prepareMessages this) "h" = {["validator2"]} ∧
  prepareMessages (final (handleConsensusMessage message this)) = ∅ ∧
  final (handleConsensusMessage message this) ≠ this.
Proof.
  intros this message.
  assert (votes (prepareMessages this) "h" = {["validator2"]}) as Hvotes
    by (by vm_compute).
  assert (prepareMessages (final (handleConsensusMessage message this)) = ∅)
    as Hcleared by (by vm_compute).
  split; [by vm_compute|]. split; [exact Hvotes|]. split; [exact Hcleared|].
  intros Heq. rewrite Heq in Hcleared. rewrite Hcleared, votes_empty in Hvotes.
  assert ("validator2" ∈ (∅ : gset string)) as Hin
    by (rewrite Hvotes; by apply elem_of_singleton).
  by apply not_elem_of_empty in Hin.
Qed.

(** ** What every reachable engine satisfies *)

(** X1: in a reachable engine every validator recorded in a prepare or in a
    commit tally is a member of the validator set, so no tally counts more
    votes than there are validators. *)
Theorem reachable_votes_are_members this hash :
  reachable this →
  votes (prepareMessages this) hash ⊆ validators this ∧
  votes (commitMessages this) hash ⊆ validators this ∧
  count (prepareMessages this) hash ≤ size (validators this) ∧
  count (commitMessages this) hash ≤ size (validators this).
Proof.
  intros Hreach. apply reachable_invariant in Hreach as [_ _ Hprep Hcomm].
  split; [apply Hprep|]. split; [apply Hcomm|].
  split; apply subseteq_size; [apply Hprep|apply Hcomm].
Qed.

Lemma reachable_votes_are_members_witness :
  let this := final (run threePrepares engine1) in
  votes (prepareMessages this) "h" ⊆ validators this ∧
  count (prepareMessages this) "h" ≤ size (validators this).
Proof.
  intros this.
  destruct (reachable_votes_are_members this "h") as (Hsub & _ & Hcount & _).
  - by exists "validator1", fourValidators, threePrepares.
  - by split.
Defined.

(** X2: in a reachable engine no commit tally has reached the threshold:
    the vote that would complete a quorum finalizes and empties the tallies
    instead of being kept. *)
Theorem reachable_commit_tally_below_quorum this hash :
  reachable this →
  count (commitMessages this) hash < requiredConsensus this.
Proof.
  intros Hreach. by apply reachable_invariant in Hreach as [_ Hbelow _ _].
Qed.

Lemma reachable_commit_tally_below_quorum_witness :
  count (commitMessages engine1AtHeight1) "h" < requiredConsensus engine1AtHeight1.
Proof.
  apply (reachable_commit_tally_below_quorum engine1AtHeight1 "h").
  by exists "validator1", fourValidators, threeCommits.
Defined.

(** X3: two sets of validators of a reachable engine that both reach its
    threshold have a member in common. *)
Theorem reachable_quorums_intersect this (Q1 Q2 : gset string) :
  reachable this →
  Q1 ⊆ validators this → Q2 ⊆ validators this →
  requiredConsensus this ≤ size Q1 → requiredConsensus this ≤ size Q2 →
  ∃ v, v ∈ Q1 ∧ v ∈ Q2.
Proof.
  intros Hreach. apply quorums_intersect. by apply reachable_invariant.
Qed.

Lemma reachable_quorums_intersect_witness :
  ∃ v, v ∈ ({["validator1"; "validator2"; "validator3"]} : gset string) ∧
       v ∈ ({["validator2"; "validator3"; "validator4"]} : gset string).
Proof.
  apply (reachable_quorums_intersect engine1).
  - apply reachable_constructor.
  - apply (bool_decide_unpack _). by vm_compute.
  - apply (bool_decide_unpack _). by vm_compute.
  - vm_compute. lia.
  - vm_compute. lia.
Defined.

(** X4: the threshold is at least 1.  For n >= 1 distinct validators it is
    n minus floor((n-1)/3), hence at most n: a quorum can be formed while
    floor((n-1)/3) validators stay silent.  For the empty list (n = 0) it is
    1, above the number of validators. *)
Theorem requiredConsensus_bounds self initialValidators :
  let n := size (validators (constructor self initialValidators)) in
  let required := requiredConsensus (constructor self initialValidators) in
  1 ≤ required ∧
  required ≤ Nat.max n 1 ∧
  required = (if decide (n = 0) then 1 else n - (n - 1) / 3) ∧
  (if decide (n = 0) then True else (n - 1) / 3 < n).
Proof.
  intros n required. subst n required.
  unfold constructor. cbn [requiredConsensus validators].
  generalize (size (list_to_set initialValidators : gset string)). intros n.
  pose proof (Nat.div_mod_eq (n * 2) 3) as Hdiv.
  pose proof (Nat.mod_upper_bound (n * 2) 3 ltac:(lia)) as Hmod.
  pose proof (Nat.div_mod_eq (n - 1) 3) as Hdiv'.
  pose proof (Nat.mod_upper_bound (n - 1) 3 ltac:(lia)) as Hmod'.
  destruct (decide (n = 0)); lia.
Qed.

(** ** Heights *)

Lemma call_propose_eq transactions now this :
  call (ProposeBlock transactions now) this =
    (tt, this,
     [ConsensusMessage.mk PREPARE (currentHeight this + 1) "placeholder_hash"
        (validatorId this) "placeholder_signature"]).
Proof. reflexivity. Qed.

Lemma finalizations_app out1 out2 :
  finalizations (out1 ++ out2) = finalizations out1 + finalizations out2.
Proof. unfold finalizations. by rewrite List.filter_app, length_app. Qed.

Lemma call_height c this :
  currentHeight (final (call c this)) =
    (currentHeight this + Z.of_nat (finalizations (emitted (call c this))))%Z.
Proof.
  destruct c as [transactions now|message].
  - rewrite call_propose_eq. cbn. lia.
  - cbn [call]. rewrite handleConsensusMessage_eq. destruct (type message).
    + rewrite handlePrepareMessage_eq. case_bool_decide; cbn; [|lia].
      destruct (_ <=? _); cbn; lia.
    + rewrite handleCommitMessage_eq. case_bool_decide; cbn; [|lia].
      destruct (_ <=? _); cbn; lia.
    + rewrite startNewRound_eq. destruct (_ <=? _)%Z; cbn; lia.
Qed.

(** X5: over any history of calls the current height grows by exactly the
    number of NEW_ROUND messages the engine broadcast, that is by the number
    of finalizations; in particular it never decreases. *)
Theorem height_counts_finalizations calls this :
  currentHeight (final (run calls this)) =
    (currentHeight this + Z.of_nat (finalizations (emitted (run calls this))))%Z ∧
  (currentHeight this ≤ currentHeight (final (run calls this)))%Z.
Proof.
  assert (currentHeight (final (run calls this)) =
    (currentHeight this + Z.of_nat (finalizations (emitted (run calls this))))%Z)
    as Heq.
  { revert this. induction calls as [|c calls IH]; intros this.
    - cbn. lia.
    - rewrite final_run_cons, emitted_run_cons, finalizations_app, IH, call_height.
      lia. }
  split; [exact Heq|lia].
Qed.

(** X6: the current height changes only when a COMMIT vote of a member of
    the validator set brings the tally of its hash to the threshold: no
    proposal, no PREPARE, no NEW_ROUND, no vote of a non-member and no COMMIT
    below the threshold changes it. *)
Theorem height_changes_only_on_commit_quorum c this :
  currentHeight (final (call c this)) ≠ currentHeight this →
  ∃ message,
    c = HandleConsensusMessage message ∧
    type message = COMMIT ∧
    ConsensusMessage.validatorId message ∈ validators this ∧
    requiredConsensus this ≤
      size (votes (commitMessages this) (blockHash message)
              ∪ {[ConsensusMessage.validatorId message]}) ∧
    currentHeight (final (call c this)) = (currentHeight this + 1)%Z.
Proof.
  destruct c as [transactions now|message]; [by rewrite call_propose_eq|].
  cbn [call]. rewrite handleConsensusMessage_eq.
  destruct (type message) eqn:Htype.
  - rewrite handlePrepareMessage_eq. by case_bool_decide.
  - rewrite handleCommitMessage_eq. case_bool_decide as Hmember; [|done].
    cbv zeta. unfold count. rewrite votes_addVote.
    destruct (_ <=? _) eqn:Hleb; [|done].
    intros _. exists message. apply Nat.leb_le in Hleb. by rewrite Htype.
  - rewrite startNewRound_eq. by destruct (_ <=? _)%Z.
Qed.

Lemma height_changes_only_on_commit_quorum_witness :
  let this := final (run [HandleConsensusMessage (vote COMMIT 1 "h" "validator1");
                          HandleConsensusMessage (vote COMMIT 1 "h" "validator2")]
                       engine1) in
  ∃ message,
    HandleConsensusMessage (vote COMMIT 1 "h" "validator3")
      = HandleConsensusMessage message ∧
    type message = COMMIT ∧
    ConsensusMessage.validatorId message ∈ validators this.
Proof.
  intros this.
  destruct (height_changes_only_on_commit_quorum
              (HandleConsensusMessage (vote COMMIT 1 "h" "validator3")) this)
    as (message & Hcall & Htype & Hmember & _).
  - by vm_compute.
  - exists message. split; [exact Hcall|]. split; [exact Htype|exact Hmember].
Defined.

(** ** What the engine broadcasts *)

Lemma call_emitted_own c this :
  Forall (λ m,
            ConsensusMessage.validatorId m = validatorId this ∧
            (currentHeight this < blockHeight m)%Z ∧
            ConsensusMessage.signature m =
              (if isNewRound m then "" else "placeholder_signature"))
    (emitted (call c this)).
Proof.
  destruct c as [transactions now|message].
  - rewrite call_propose_eq. cbn. repeat constructor. cbn. lia.
  - cbn [call]. rewrite handleConsensusMessage_eq. destruct (type message).
    + rewrite handlePrepareMessage_eq. case_bool_decide; cbn; [|constructor].
      destruct (_ <=? _); cbn; repeat constructor. cbn. lia.
    + rewrite handleCommitMessage_eq. case_bool_decide; cbn; [|constructor].
      destruct (_ <=? _); cbn; repeat constructor. cbn. lia.
    + rewrite startNewRound_eq. destruct (_ <=? _)%Z; cbn; constructor.
Qed.

(** X7: every message an engine broadcasts over a history carries the
    engine's own validator id and a height above the height the history
    started at; its signature is the fixed placeholder, or empty for
    NEW_ROUND: no signature of a received message is ever passed on. *)
Theorem emitted_messages_are_own calls this :
  Forall (λ m,
            ConsensusMessage.validatorId m = validatorId this ∧
            (currentHeight this < blockHeight m)%Z ∧
            ConsensusMessage.signature m =
              (if isNewRound m then "" else "placeholder_signature"))
    (emitted (run calls this)).
Proof.
  revert this. induction calls as [|c calls IH]; intros this; [constructor|].
  rewrite emitted_run_cons. apply Forall_app. split; [apply call_emitted_own|].
  destruct (call_fixed_fields c this) as (_ & Hself & _).
  pose proof (call_height c this) as Hheight.
  eapply Forall_impl; [apply IH|]. cbn. intros m (Hid & Hlt & Hsig).
  rewrite Hself in Hid. split; [done|]. split; [lia|done].
Qed.

(** ** Proposals *)

(** X8: proposing blocks never changes the engine: the state a history leaves
    behind is the state its message deliveries alone leave behind.  Two
    proposals with no finalization in between therefore return blocks of the
    same height. *)
Theorem proposals_do_not_change_state calls this :
  final (run calls this) = final (run (List.filter isDelivery calls) this).
Proof.
  revert this. induction calls as [|c calls IH]; intros this; [done|].
  rewrite final_run_cons. destruct c as [transactions now|message]; cbn [List.filter isDelivery].
  - rewrite call_propose_eq. cbn [final fst snd]. apply IH.
  - rewrite final_run_cons. apply IH.
Qed.

(** ** An engine without validators *)

Lemma call_without_validators c this :
  validators this = ∅ → prepareMessages this = ∅ → commitMessages this = ∅ →
  final (call c this) = this ∧
  Forall (λ m, type m = PREPARE) (emitted (call c this)).
Proof.
  intros Hnone Hprep Hcomm.
  destruct c as [transactions now|message].
  - rewrite call_propose_eq. cbn. by repeat constructor.
  - cbn [call]. rewrite handleConsensusMessage_eq. destruct (type message).
    + rewrite handlePrepareMessage_eq, Hnone.
      rewrite bool_decide_eq_false_2 by apply not_elem_of_empty. by split.
    + rewrite handleCommitMessage_eq, Hnone.
      rewrite bool_decide_eq_false_2 by apply not_elem_of_empty. by split.
    + rewrite startNewRound_eq. destruct (_ <=? _)%Z; [by split|].
      split; [|constructor]. destruct this; cbn in *. by subst.
Qed.

(** X9: an engine constructed with an empty validator list is inert: whatever
    calls it receives, it stays exactly as constructed (height 0, empty
    tallies), and all it ever broadcasts are the PREPARE messages of its own
    proposals; no vote is accepted and no block is finalized. *)
Theorem engine_without_validators_is_inert self calls :
  final (run calls (constructor self [])) = constructor self [] ∧
  Forall (λ m, type m = PREPARE) (emitted (run calls (constructor self []))).
Proof.
  induction calls as [|c calls [IHfinal IHemitted]]; [by split; [|constructor]|].
  destruct (call_without_validators c (constructor self [])) as [Hsame Hout];
    [done..|].
  rewrite final_run_cons, emitted_run_cons, Hsame. split; [done|].
  apply Forall_app. by split.
Qed.

(** ** PREPARE votes *)

(** X10: a PREPARE message touches nothing but the prepare tally of its own
    hash: the commit tallies, the height and the prepare votes of every other
    hash stay as they were, also when the vote makes the engine broadcast
    COMMIT (the engine's own COMMIT is not put in its commit tally).  The
    count of the message's hash grows by one when the sender is a member of
    the validator set not yet recorded for the hash, and is unchanged
    otherwise. *)
Theorem prepare_touches_only_its_tally message this other :
  other ≠ blockHash message →
  let r := handlePrepareMessage message this in
  let v := ConsensusMessage.validatorId message in
  commitMessages (final r) = commitMessages this ∧
  currentHeight (final r) = currentHeight this ∧
  prepareMessages (final r) !! other = prepareMessages this !! other ∧
  count (prepareMessages (final r)) (blockHash message) =
    count (prepareMessages this) (blockHash message) +
    (if bool_decide (v ∈ validators this ∧
                     v ∉ votes (prepareMessages this) (blockHash message))
     then 1 else 0).
Proof.
  intros Hother r v. subst r v. rewrite handlePrepareMessage_eq.
  destruct (bool_decide (_ ∈ validators this)) eqn:Hmember; cbn.
  - apply bool_decide_eq_true_1 in Hmember.
    split; [done|]. split; [done|]. split.
    + unfold addVote. by rewrite lookup_insert_ne.
    + unfold count. rewrite votes_addVote. case_bool_decide as Hnew.
      * destruct Hnew as [_ Hnew]. rewrite size_union, size_singleton; [done|].
        by apply disjoint_singleton_r.
      * assert (ConsensusMessage.validatorId message
                  ∈ votes (prepareMessages this) (blockHash message)) as Hold.
        { destruct (decide (ConsensusMessage.validatorId message
                    ∈ votes (prepareMessages this) (blockHash message)));
            [done|]. by destruct Hnew. }
        rewrite (comm_L (∪)), subseteq_union_1_L; [lia|].
        by apply singleton_subseteq_l.
  - apply bool_decide_eq_false_1 in Hmember.
    split; [done|]. split; [done|]. split; [done|].
    rewrite bool_decide_eq_false_2; [lia|]. by intros [? _].
Qed.

Lemma prepare_touches_only_its_tally_witness :
  let this := final (run [HandleConsensusMessage (vote PREPARE 1 "A" "validator2")]
                       engine1) in
  let r := handlePrepareMessage (vote PREPARE 1 "B" "validator3") this in
  prepareMessages (final r) !! "A" = prepareMessages this !! "A" ∧
  count (prepareMessages (final r)) "B" = 1.
Proof.
  intros this r.
  destruct (prepare_touches_only_its_tally (vote PREPARE 1 "B" "validator3") this "A")
    as (_ & _ & Hother & Hcount); [discriminate|].
  split; [exact Hother|]. fold r in Hcount. cbn [vote blockHash] in Hcount.
  rewrite Hcount. by vm_compute.
Defined.

Lemma addVote_comm v1 hash1 v2 hash2 tally :
  addVote v2 hash2 (addVote v1 hash1 tally)
    = addVote v1 hash1 (addVote v2 hash2 tally).
Proof.
  destruct (decide (hash1 = hash2)) as [<-|Hne].
  - unfold addVote at 1 3. rewrite !votes_addVote.
    unfold addVote. rewrite !insert_insert_eq. f_equal.
    rewrite <- !(assoc_L (∪)). f_equal. apply (comm_L (∪)).
  - unfold addVote at 1 3.
    rewrite (votes_addVote_ne v1 hash1 hash2) by done.
    rewrite (votes_addVote_ne v2 hash2 hash1) by done.
    unfold addVote. by apply insert_insert_ne.
Qed.

(** X11: the state two PREPARE messages leave behind does not depend on the
    order in which they are handled. *)
Theorem prepare_votes_commute message1 message2 this :
  final (handlePrepareMessage message2 (final (handlePrepareMessage message1 this)))
    = final (handlePrepareMessage message1 (final (handlePrepareMessage message2 this))).
Proof.
  rewrite (handlePrepareMessage_eq message1 this).
  rewrite (handlePrepareMessage_eq message2 this).
  destruct (bool_decide (ConsensusMessage.validatorId message1 ∈ validators this))
    eqn:Hmember1;
  destruct (bool_decide (ConsensusMessage.validatorId message2 ∈ validators this))
    eqn:Hmember2;
  cbn [final fst snd]; rewrite !handlePrepareMessage_eq; cbn [validators setPrepareMessages];
  rewrite ?Hmember1, ?Hmember2; cbn; try done.
  by rewrite addVote_comm.
Qed.

(** ** Reaching a quorum *)

Lemma emitted_run_app calls1 calls2 this :
  emitted (run (calls1 ++ calls2) this) =
    emitted (run calls1 this) ++ emitted (run calls2 (final (run calls1 this))).
Proof.
  revert this. induction calls1 as [|c calls1 IH]; intros this; [done|].
  cbn [app]. rewrite !emitted_run_cons, !final_run_cons, IH.
  by rewrite (assoc_L (++)).
Qed.

Lemma size_votes_with_sender (S : gset string) v (l : list string) :
  size (S ∪ {[v]}) ≤ size (S ∪ list_to_set (v :: l)).
Proof.
  apply subseteq_size. rewrite list_to_set_cons. intros x Hx.
  apply elem_of_union in Hx as [Hx|Hx]; apply elem_of_union; [by left|right].
  apply elem_of_union. by left.
Qed.

(** COMMIT votes of members for one hash are collected silently as long as
    the tally stays below the threshold. *)
Lemma commits_below_quorum hash messages this :
  Forall (λ m, type m = COMMIT ∧ blockHash m = hash ∧
               ConsensusMessage.validatorId m ∈ validators this) messages →
  size (votes (commitMessages this) hash ∪ list_to_set (senders messages))
    < requiredConsensus this →
  let r := run (deliver messages) this in
  votes (commitMessages (final r)) hash
    = votes (commitMessages this) hash ∪ list_to_set (senders messages) ∧
  prepareMessages (final r) = prepareMessages this ∧
  currentHeight (final r) = currentHeight this ∧
  validators (final r) = validators this ∧
  validatorId (final r) = validatorId this ∧
  requiredConsensus (final r) = requiredConsensus this ∧
  emitted r = [].
Proof.
  revert this. induction messages as [|m messages IH]; intros this Hall Hsize r; subst r.
  - cbn. rewrite (right_id_L ∅ (∪)). by repeat split.
  - apply Forall_cons in Hall as [(Htype & Hhash & Hmember) Hall].
    cbn [deliver map senders] in *. fold (deliver messages). fold (senders messages) in *.
    rewrite final_run_cons, emitted_run_cons. cbn [call].
    rewrite handleConsensusMessage_eq, Htype.
    rewrite handleCommitMessage_below_quorum; [|done|].
    2:{ rewrite Hhash. apply Nat.lt_nge. eapply Nat.le_lt_trans; [|exact Hsize].
        apply size_votes_with_sender. }
    cbn [final emitted fst snd app]. rewrite Hhash.
    specialize (IH (setCommitMessages
                      (addVote (ConsensusMessage.validatorId m) hash
                         (commitMessages this)) this)).
    cbn [commitMessages setCommitMessages validators requiredConsensus] in IH.
    rewrite votes_addVote in IH.
    rewrite list_to_set_cons, (assoc_L (∪)).
    rewrite list_to_set_cons, (assoc_L (∪)) in Hsize.
    by apply IH.
Qed.

Lemma deliver_app messages1 messages2 :
  deliver (messages1 ++ messages2) = deliver messages1 ++ deliver messages2.
Proof. apply map_app. Qed.

Lemma senders_app messages1 messages2 :
  senders (messages1 ++ messages2) = senders messages1 ++ senders messages2.
Proof. apply map_app. Qed.

Lemma size_senders_with_last messages m :
  NoDup (senders (messages ++ [m])) →
  size (list_to_set (senders messages) : gset string) = length messages ∧
  size ((list_to_set (senders messages) : gset string)
          ∪ {[ConsensusMessage.validatorId m]}) = length (messages ++ [m]).
Proof.
  rewrite senders_app. intros Hnodup.
  apply NoDup_app in Hnodup as (Hnodup & Hfresh & _).
  assert (size (list_to_set (senders messages) : gset string) = length messages)
    as Hsize by (rewrite size_list_to_set by done; apply length_map).
  split; [done|].
  rewrite size_union, size_singleton, Hsize, length_app; [done|].
  apply disjoint_singleton_r. rewrite elem_of_list_to_set. intros Hin.
  apply (Hfresh _ Hin). cbn. by left.
Qed.

(** X12: when as many distinct members of the validator set as the threshold
    asks for send a COMMIT vote for one hash that has no commit votes yet,
    the engine finalizes exactly once, on the last of them: the height has
    grown by one, both tallies are empty and the one message broadcast is
    NEW_ROUND for the new height plus one.  Heights and signatures of the
    votes play no part. *)
Theorem commit_quorum_of_distinct_members hash messages m this :
  Forall (λ m, type m = COMMIT ∧ blockHash m = hash ∧
               ConsensusMessage.validatorId m ∈ validators this)
    (messages ++ [m]) →
  NoDup (senders (messages ++ [m])) →
  votes (commitMessages this) hash = ∅ →
  length (messages ++ [m]) = requiredConsensus this →
  let r := run (deliver (messages ++ [m])) this in
  final r =
    mkBFTConsensus (validators this) ∅ ∅ (validatorId this)
      (currentHeight this + 1) (requiredConsensus this) ∧
  emitted r =
    [ConsensusMessage.mk NEW_ROUND (currentHeight this + 1 + 1) ""
       (validatorId this) ""].
Proof.
  intros Hall Hnodup Hempty Hlen r. subst r.
  apply Forall_app in Hall as [Hall Hlast].
  apply Forall_singleton in Hlast as (Htype & Hhash & Hmember).
  destruct (size_senders_with_last messages m Hnodup) as [Hsize Hsize'].
  destruct (commits_below_quorum hash messages this Hall)
    as (Hvotes & Hprep & Hheight & Hvals & Hself & Hreq & Hout).
  { rewrite Hempty, (left_id_L ∅ (∪)), Hsize, <- Hlen, length_app. cbn. lia. }
  rewrite Hempty, (left_id_L ∅ (∪)) in Hvotes.
  set (this1 := final (run (deliver messages) this)) in *.
  assert (handleConsensusMessage m this1 =
            (tt,
             mkBFTConsensus (validators this) ∅ ∅ (validatorId this)
               (currentHeight this + 1) (requiredConsensus this),
             [ConsensusMessage.mk NEW_ROUND (currentHeight this + 1 + 1) ""
                (validatorId this) ""])) as Hstep.
  { rewrite handleConsensusMessage_eq, Htype, handleCommitMessage_eq.
    rewrite Hvals, bool_decide_eq_true_2 by done. cbv zeta.
    unfold count. rewrite votes_addVote, Hhash, Hvotes, Hsize', Hreq, Hlen.
    rewrite Nat.leb_refl. by rewrite ?Hvals, ?Hself, ?Hheight, ?Hreq. }
  rewrite deliver_app, run_app, emitted_run_app, Hout. fold this1.
  cbn [deliver map app]. rewrite final_run_cons, emitted_run_cons.
  cbn [call]. by rewrite Hstep.
Qed.

Lemma commit_quorum_of_distinct_members_witness :
  let r := run threeCommits engine1 in
  currentHeight (final r) = 1%Z ∧
  emitted r = [ConsensusMessage.mk NEW_ROUND 2 "" "validator1" ""].
Proof.
  intros r.
  destruct (commit_quorum_of_distinct_members "h"
              [vote COMMIT 1 "h" "validator1"; vote COMMIT 1 "h" "validator2"]
              (vote COMMIT 1 "h" "validator3") engine1) as [Hfinal Hemitted].
  - repeat constructor; by vm_compute.
  - apply (bool_decide_unpack _). by vm_compute.
  - by vm_compute.
  - by vm_compute.
  - change (run (deliver ([vote COMMIT 1 "h" "validator1";
              vote COMMIT 1 "h" "validator2"] ++ [vote COMMIT 1 "h" "validator3"]))
              engine1) with r in Hfinal, Hemitted.
    rewrite Hfinal, Hemitted. by split.
Defined.

(** X13: COMMIT votes for one hash that come from fewer distinct members than
    the threshold asks for never finalize, however often they are repeated
    and whatever heights and signatures they carry: they are collected in
    the tally of the hash, the height and the prepare tallies stay as they
    were and nothing is broadcast. *)
Theorem commits_of_too_few_members_never_finalize hash messages this :
  Forall (λ m, type m = COMMIT ∧ blockHash m = hash ∧
               ConsensusMessage.validatorId m ∈ validators this) messages →
  size (votes (commitMessages this) hash ∪ list_to_set (senders messages))
    < requiredConsensus this →
  let r := run (deliver messages) this in
  currentHeight (final r) = currentHeight this ∧
  prepareMessages (final r) = prepareMessages this ∧
  votes (commitMessages (final r)) hash
    = votes (commitMessages this) hash ∪ list_to_set (senders messages) ∧
  emitted r = [].
Proof.
  intros Hall Hsize r. subst r.
  destruct (commits_below_quorum hash messages this Hall Hsize)
    as (Hvotes & Hprep & Hheight & _ & _ & _ & Hout).
  by repeat split.
Qed.

Lemma commits_of_too_few_members_never_finalize_witness :
  let messages :=
    [vote COMMIT 1 "h" "validator1"; vote COMMIT 1 "h" "validator2";
     vote COMMIT 1 "h" "validator1"; vote COMMIT 7 "h" "validator2"] in
  currentHeight (final (run (deliver messages) engine1)) = 0%Z ∧
  emitted (run (deliver messages) engine1) = [].
Proof.
  intros messages.
  destruct (commits_of_too_few_members_never_finalize "h" messages engine1)
    as (Hheight & _ & _ & Hout).
  - repeat constructor; by vm_compute.
  - vm_compute. lia.
  - split; [exact Hheight|exact Hout].
Defined.

(** PREPARE votes of members for one hash are collected silently as long as
    the tally stays below the threshold. *)
Lemma prepares_below_quorum hash messages this :
  Forall (λ m, type m = PREPARE ∧ blockHash m = hash ∧
               ConsensusMessage.validatorId m ∈ validators this) messages →
  size (votes (prepareMessages this) hash ∪ list_to_set (senders messages))
    < requiredConsensus this →
  let r := run (deliver messages) this in
  votes (prepareMessages (final r)) hash
    = votes (prepareMessages this) hash ∪ list_to_set (senders messages) ∧
  commitMessages (final r) = commitMessages this ∧
  currentHeight (final r) = currentHeight this ∧
  validators (final r) = validators this ∧
  validatorId (final r) = validatorId this ∧
  requiredConsensus (final r) = requiredConsensus this ∧
  emitted r = [].
Proof.
  revert this. induction messages as [|m messages IH]; intros this Hall Hsize r; subst r.
  - cbn. rewrite (right_id_L ∅ (∪)). by repeat split.
  - apply Forall_cons in Hall as [(Htype & Hhash & Hmember) Hall].
    cbn [deliver map senders] in *. fold (deliver messages). fold (senders messages) in *.
    rewrite final_run_cons, emitted_run_cons. cbn [call].
    rewrite handleConsensusMessage_eq, Htype, handlePrepareMessage_eq.
    rewrite bool_decide_eq_true_2 by done. cbv zeta.
    unfold count. rewrite votes_addVote, Hhash.
    rewrite (proj2 (Nat.leb_gt _ _)).
    2:{ eapply Nat.le_lt_trans; [|exact Hsize]. apply size_votes_with_sender. }
    cbn [final emitted fst snd app].
    specialize (IH (setPrepareMessages
                      (addVote (ConsensusMessage.validatorId m) hash
                         (prepareMessages this)) this)).
    cbn [prepareMessages setPrepareMessages validators requiredConsensus] in IH.
    rewrite votes_addVote in IH.
    rewrite list_to_set_cons, (assoc_L (∪)).
    rewrite list_to_set_cons, (assoc_L (∪)) in Hsize.
    by apply IH.
Qed.

(** X14: when as many distinct members of the validator set as the threshold
    asks for send a PREPARE vote for one hash that has no prepare votes yet,
    the engine broadcasts COMMIT exactly once, on the last of them, for the
    height after its current one; the votes are then the senders, and the
    commit tallies and the height are unchanged. *)
Theorem prepare_quorum_of_distinct_members hash messages m this :
  Forall (λ m, type m = PREPARE ∧ blockHash m = hash ∧
               ConsensusMessage.validatorId m ∈ validators this)
    (messages ++ [m]) →
  NoDup (senders (messages ++ [m])) →
  votes (prepareMessages this) hash = ∅ →
  length (messages ++ [m]) = requiredConsensus this →
  let r := run (deliver (messages ++ [m])) this in
  emitted r =
    [ConsensusMessage.mk COMMIT (currentHeight this + 1) hash
       (validatorId this) "placeholder_signature"] ∧
  votes (prepareMessages (final r)) hash = list_to_set (senders (messages ++ [m])) ∧
  commitMessages (final r) = commitMessages this ∧
  currentHeight (final r) = currentHeight this.
Proof.
  intros Hall Hnodup Hempty Hlen r. subst r.
  apply Forall_app in Hall as [Hall Hlast].
  apply Forall_singleton in Hlast as (Htype & Hhash & Hmember).
  destruct (size_senders_with_last messages m Hnodup) as [Hsize Hsize'].
  destruct (prepares_below_quorum hash messages this Hall)
    as (Hvotes & Hcomm & Hheight & Hvals & Hself & Hreq & Hout).
  { rewrite Hempty, (left_id_L ∅ (∪)), Hsize, <- Hlen, length_app. cbn. lia. }
  rewrite Hempty, (left_id_L ∅ (∪)) in Hvotes.
  set (this1 := final (run (deliver messages) this)) in *.
  assert (handleConsensusMessage m this1 =
            (tt,
             setPrepareMessages
               (addVote (ConsensusMessage.validatorId m) hash
                  (prepareMessages this1)) this1,
             [ConsensusMessage.mk COMMIT (currentHeight this + 1) hash
                (validatorId this) "placeholder_signature"])) as Hstep.
  { rewrite handleConsensusMessage_eq, Htype, handlePrepareMessage_eq.
    rewrite Hvals, bool_decide_eq_true_2 by done. cbv zeta.
    unfold count. rewrite votes_addVote, Hhash, Hvotes, Hsize', Hreq, Hlen.
    rewrite Nat.leb_refl. by rewrite ?Hself, ?Hheight. }
  rewrite deliver_app, run_app, emitted_run_app, Hout. fold this1.
  cbn [deliver map app]. rewrite final_run_cons, emitted_run_cons.
  cbn [call]. rewrite Hstep. cbn [final emitted fst snd run].
  split; [done|]. split; [|by split].
  cbn. rewrite votes_addVote, Hvotes, senders_app, list_to_set_app_L. cbn.
  by rewrite (right_id_L ∅ (∪)).
Qed.

Lemma prepare_quorum_of_distinct_members_witness :
  let r := run threePrepares engine1 in
  emitted r =
    [ConsensusMessage.mk COMMIT 1 "h" "validator1" "placeholder_signature"] ∧
  commitMessages (final r) = ∅.
Proof.
  intros r.
  destruct (prepare_quorum_of_distinct_members "h"
              [vote PREPARE 1 "h" "validator1"; vote PREPARE 1 "h" "validator2"]
              (vote PREPARE 1 "h" "validator3") engine1)
    as (Hemitted & _ & Hcommit & _).
  - repeat constructor; by vm_compute.
  - apply (bool_decide_unpack _). by vm_compute.
  - by vm_compute.
  - by vm_compute.
  - change (run (deliver ([vote PREPARE 1 "h" "validator1";
              vote PREPARE 1 "h" "validator2"] ++ [vote PREPARE 1 "h" "validator3"]))
              engine1) with r in Hemitted, Hcommit.
    split; [exact Hemitted|]. by rewrite Hcommit.
Defined.

(** ** Finalization as seen by the other engines *)

(** X15: the NEW_ROUND message an engine broadcasts when it finalizes passes
    the height guard of every engine whose height is not above the sender's
    new height, the sender included: such an engine empties both of its
    tallies, votes already collected for the next block included, keeps its
    height and broadcasts nothing. *)
Theorem finalization_new_round_resets_peers message this peer :
  type message = COMMIT →
  ConsensusMessage.validatorId message ∈ validators this →
  requiredConsensus this ≤
    size (votes (commitMessages this) (blockHash message)
            ∪ {[ConsensusMessage.validatorId message]}) →
  (currentHeight peer ≤ currentHeight this + 1)%Z →
  Forall (λ announcement,
            let r := handleConsensusMessage announcement peer in
            prepareMessages (final r) = ∅ ∧
            commitMessages (final r) = ∅ ∧
            currentHeight (final r) = currentHeight peer ∧
            emitted r = [])
    (emitted (handleConsensusMessage message this)) ∧
  emitted (handleConsensusMessage message this) ≠ [].
Proof.
  intros Htype Hmember Hquorum Hpeer.
  rewrite (handleConsensusMessage_eq message this), Htype, handleCommitMessage_eq.
  rewrite bool_decide_eq_true_2 by done. cbv zeta.
  unfold count. rewrite votes_addVote, (proj2 (Nat.leb_le _ _) Hquorum).
  cbn [emitted snd]. split; [|discriminate].
  apply Forall_singleton. cbv zeta.
  rewrite handleConsensusMessage_eq. cbn [type blockHeight].
  rewrite startNewRound_eq, (proj2 (Z.leb_gt _ _)) by lia. by cbn.
Qed.

Lemma finalization_new_round_resets_peers_witness :
  let this := final (run [HandleConsensusMessage (vote COMMIT 1 "h" "validator1");
                          HandleConsensusMessage (vote COMMIT 1 "h" "validator2")]
                       engine1) in
  let peer := final (run [HandleConsensusMessage (vote PREPARE 2 "g" "validator3")]
                       engine1AtHeight1) in
  emitted (handleConsensusMessage (vote COMMIT 1 "h" "validator3") this) ≠ [].
Proof.
  intros this peer.
  destruct (finalization_new_round_resets_peers
              (vote COMMIT 1 "h" "validator3") this peer) as [_ Hsent].
  - reflexivity.
  - by vm_compute.
  - vm_compute. lia.
  - by vm_compute.
  - exact Hsent.
Defined.

(** ** The example run *)

(** X16: whatever the clock shows, the example run of the module prints the
    four step lines, the PREPARE message validator 1 broadcasts for its
    proposal, and the monitoring line, and nothing else: the single PREPARE
    and the single COMMIT vote of validator 2 reach no quorum at any engine,
    so no COMMIT and no NEW_ROUND message is broadcast and no engine
    finalizes although the line [4. Block finalized] is printed.  The closing
    NEW_ROUND(2) empties the tallies, so that all four engines end exactly
    as they were constructed, at height 0. *)
Theorem exampleUsage_finalizes_nothing now :
  exampleUsage now instances =
    (tt, instances,
     [Log "1. Proposing new block";
      Broadcasting
        (ConsensusMessage.mk PREPARE 1 "placeholder_hash" "validator1"
           "placeholder_signature");
      Log "2. Validators sending PREPARE messages";
      Log "3. Validators sending COMMIT messages";
      Log "4. Block finalized";
      Log "Monitoring consensus progress..."]).
Proof. by vm_compute. Qed.
